(** * Nyra bot (src/nyra_bot.py): command handlers, dispatch and startup

    The script builds a [commands.Bot] with prefix "lunaria!", registers three
    command handlers ([wisdom], [welcome], [help]) and calls [bot.run()].

    Python strings are kept as [string] holding their UTF-8 bytes.  UTF-8 is
    an injective, concatenation-preserving and self-synchronising encoding,
    so equality, concatenation and the substring relation on the encoded
    strings coincide with the same relations on the code-point strings. *)

From stdpp Require Import gmap strings list fin_maps.
From Stdlib Require Import ZArith Lia.

Local Open Scope string_scope.
Local Open Scope list_scope.

(** ** Platform values *)

(** [discord.Member]: the handlers only read [.mention]; the dispatcher also
    reads [.bot], here [is_bot]. *)
Record Member := { mention : string; is_bot : bool }.

(** [commands.Context]: the handlers only read [ctx.author]. *)
Record Context := { author : Member }.

Record EmbedField := { name : string; value : string; inline : bool }.

(** [discord.Embed]: attributes left out of the constructor call are unset. *)
Record Embed := {
  title : option string;
  description : option string;
  color : option Z;
  footer : option string;
  fields : list EmbedField
}.

(** What [ctx.send] is given: positional text, or [embed=...]. *)
Inductive Message :=
| Content (s : string)
| Rich (e : Embed).

(** [discord.Embed(title=..., description=..., color=...)] *)
Definition Embed_new (t d : option string) (c : option Z) : Embed :=
  {| title := t; description := d; color := c; footer := None; fields := [] |}.

(** [embed.set_footer(text=...)] *)
Definition set_footer (text : string) (e : Embed) : Embed :=
  {| title := title e; description := description e; color := color e;
     footer := Some text; fields := fields e |}.

(** [embed.add_field(name=..., value=..., inline=...)]: appended last. *)
Definition add_field (n v : string) (i : bool) (e : Embed) : Embed :=
  {| title := title e; description := description e; color := color e;
     footer := footer e;
     fields := fields e ++ [{| name := n; value := v; inline := i |}] |}.

(** ** Effects

    A handler runs against a world holding the messages handed to
    [ctx.send] so far, the lines printed so far, and how many values have
    been taken from the generator. *)

Inductive PyExn :=
| IndexError
| TypeError (missing : string)
| HTTPException
| LoginFailure
| MemberNotFound
| CommandNotFound (invoked_with : string)
| CommandRegistrationError (cmd : string).

Inductive Outcome (A : Type) :=
| Ok (a : A)
| Raised (e : PyExn).
Arguments Ok {A} a.
Arguments Raised {A} e.

(** What the environment decides: the values the generator of [random]
    returns, whether the transport delivers the n-th send, which tokens the
    platform accepts, the display name of the logged-in account, and which
    argument texts the member converter resolves to a member. *)
Record Env := {
  entropy : nat -> nat;
  transport : nat -> bool;
  accepts_token : string -> bool;
  user_name : string;
  resolve_member : string -> option Member
}.

Record World := {
  env : Env;
  sent : list Message;
  stdout : list string;
  cursor : nat
}.

Definition M (A : Type) : Type := World -> Outcome A * World.

Definition ret {A} (a : A) : M A := fun w => (Ok a, w).

Definition raise {A} (e : PyExn) : M A := fun w => (Raised e, w).

Definition bind {A B} (m : M A) (k : A -> M B) : M B :=
  fun w => match m w with
           | (Ok a, w') => k a w'
           | (Raised e, w') => (Raised e, w')
           end.

Notation "x <- m ;; k" := (bind m (fun x => k))
  (at level 100, m at next level, right associativity).

(** [random._randbelow(n)]: the next value of the generator, in [0, n).  The
    generator is given by the sequence [entropy] of its raw values; reducing
    one modulo [n] keeps the result below [n] and lets every value below [n]
    occur.  [choice] never calls it with 0. *)
Definition randbelow (n : nat) : M nat :=
  fun w => (Ok (entropy (env w) (cursor w) mod n),
            {| env := env w; sent := sent w; stdout := stdout w;
               cursor := S (cursor w) |}).

(** [random.choice(seq)]: [IndexError] on an empty sequence, otherwise
    [seq[_randbelow(len(seq))]]. *)
Definition choice {A} (seq : list A) : M A :=
  match seq with
  | [] => raise IndexError
  | _ :: _ =>
      i <- randbelow (length seq) ;;
      match seq !! i with
      | Some x => ret x
      | None => raise IndexError
      end
  end.

(** [await ctx.send(...)]: the message is handed to the transport; the call
    raises when the transport fails to deliver it. *)
Definition send (m : Message) : M unit :=
  fun w =>
    let w' := {| env := env w; sent := sent w ++ [m]; stdout := stdout w;
                 cursor := cursor w |} in
    if transport (env w) (length (sent w))
    then (Ok tt, w') else (Raised HTTPException, w').

(** ** Handlers *)

Definition wisdom_lines : list string := [
  "Even void can return something.";
  "All data is a spell waiting to be cast.";
  "Modules are fragments of the soul, split but eternal.";
  "Syntax isn't written — it's conjured.";
  "The REPL is your cauldron; stir it wisely."
].

Definition wisdom (ctx : Context) : M unit :=
  let lines := wisdom_lines in
  s <- choice lines ;;
  send (Content ("🔮 " +:+ s)).

(** A positional argument at a call site: left out, or supplied. *)
Inductive Arg (A : Type) :=
| Absent
| Given (a : A).
Arguments Absent {A}.
Arguments Given {A} a.

(** Binding of a parameter declared with a default value. *)
Definition bind_default {A} (d : A) (a : Arg A) : A :=
  match a with
  | Absent => d
  | Given x => x
  end.

(** Binding of a parameter declared without a default: a call that leaves it
    out raises [TypeError] naming the parameter, before the body runs. *)
Definition bind_required {A} (pname : string) (a : Arg A) : M A :=
  match a with
  | Absent => raise (TypeError pname)
  | Given x => ret x
  end.

(** [member or other]: [None] is falsy; a [discord.Member] defines neither
    [__bool__] nor [__len__], so it is truthy. *)
Definition py_or (member : option Member) (other : Member) : Member :=
  match member with
  | Some m => m
  | None => other
  end.

(** The escape [\n] of a Python literal: one line feed. *)
Definition LF : string := String (Ascii.ascii_of_nat 10) "".

Definition welcome (ctx : Context) (member_arg : Arg (option Member)) : M unit :=
  let member := bind_default None member_arg in
  let member := py_or member (author ctx) in
  let embed := Embed_new
    (Some "🌙 A new star rises...")
    (Some ("Welcome to **Lunaria**, " +:+ mention member +:+ "!" +:+ LF +:+
           "Let the code guide you through the void."))
    (Some 0x9e91ff%Z) in
  let embed := set_footer "Nyra, Guardian of the Grimoire" embed in
  send (Rich embed).

Definition help (ctx : Context) : M unit :=
  let embed := Embed_new (Some "📜 Nyra's Grimoire of Commands") None
                         (Some 0xaab6ff%Z) in
  let embed := add_field "lunaria!wisdom"
                         "Receive a cryptic line of code-sorcery." false embed in
  let embed := add_field "lunaria!welcome [@user]"
                         "Manually invoke the welcome ritual." false embed in
  let embed := set_footer "More spells soon to be discovered..." embed in
  send (Rich embed).

(** [print(...)] *)
Definition print (line : string) : M unit :=
  fun w => (Ok tt, {| env := env w; sent := sent w;
                      stdout := stdout w ++ [line]; cursor := cursor w |}).

Definition on_ready : M unit :=
  fun w => print ("🌑 Nyra has awakened... Connected as " +:+ user_name (env w)) w.

(** ** The command table and dispatch of [discord.ext.commands]

    The part of the library the script relies on: registration by name,
    prefix matching, and lookup of the first word after the prefix. *)

(** [str.isspace] on the character starting at the head of [s]: the number
    of bytes of its encoding when it is white space, 0 otherwise.  The white
    space characters are U+0009..U+000D, U+001C..U+0020, U+0085, U+00A0,
    U+1680, U+2000..U+200A, U+2028, U+2029, U+202F, U+205F and U+3000. *)
Definition space_len (s : string) : nat :=
  match s with
  | "" => 0
  | String a r =>
      let x := Ascii.N_of_ascii a in
      if ((9 <=? x) && (x <=? 13) || (28 <=? x) && (x <=? 32))%N then 1
      else match r with
      | "" => 0
      | String b r2 =>
          let y := Ascii.N_of_ascii b in
          if ((x =? 0xC2) && ((y =? 0x85) || (y =? 0xA0)))%N then 2
          else match r2 with
          | "" => 0
          | String c _ =>
              let z := Ascii.N_of_ascii c in
              if ((x =? 0xE1) && (y =? 0x9A) && (z =? 0x80)
                  || (x =? 0xE2) && (y =? 0x80)
                     && ((0x80 <=? z) && (z <=? 0x8A)
                         || (z =? 0xA8) || (z =? 0xA9) || (z =? 0xAF))
                  || (x =? 0xE2) && (y =? 0x81) && (z =? 0x9F)
                  || (x =? 0xE3) && (y =? 0x80) && (z =? 0x80))%N
              then 3 else 0
          end
      end
  end.

Definition isspace_at (s : string) : bool :=
  match space_len s with
  | 0 => false
  | S _ => true
  end.

(** [StringView.skip_string]: the rest of [s] when it starts with [p]. *)
Fixpoint skip_string (p s : string) : option string :=
  match p with
  | "" => Some s
  | String a p' =>
      match s with
      | "" => None
      | String b s' => if Ascii.eqb a b then skip_string p' s' else None
      end
  end.

(** [StringView.get_word]: the characters up to the first white space, and
    the rest of the view. *)
Fixpoint get_word (s : string) : string * string :=
  match s with
  | "" => ("", "")
  | String a r =>
      if isspace_at s then ("", s)
      else let '(w, rest) := get_word r in (String a w, rest)
  end.

(** [StringView.skip_ws]: drops leading white space; [pending] counts the
    bytes still to drop of a white space character already recognised. *)
Fixpoint skip_ws_from (pending : nat) (s : string) : string :=
  match s with
  | "" => ""
  | String _ r =>
      match pending with
      | S p => skip_ws_from p r
      | 0 => match space_len s with
             | 0 => s
             | S p => skip_ws_from p r
             end
      end
  end.

Definition skip_ws (s : string) : string := skip_ws_from 0 s.

(** A registered command: its name and the invocation of its callback on a
    context and the unparsed remainder of the message. *)
Record Command := {
  cmd_name : string;
  invoke : Context -> string -> M unit
}.

Record Bot := {
  command_prefix : string;
  all_commands : gmap string Command
}.

(** [commands.Bot(command_prefix=..., help_command=...)]: a help command
    other than [None] is installed under the name "help". *)
Definition Bot_new (prefix : string)
    (help_command : option (Context -> string -> M unit)) : Bot :=
  {| command_prefix := prefix;
     all_commands :=
       match help_command with
       | None => ∅
       | Some h => {[ "help" := {| cmd_name := "help"; invoke := h |} ]}
       end |}.

(** [Bot.add_command]: a name already in the table is refused. *)
Definition add_command (c : Command) (b : Bot) : Outcome Bot :=
  match all_commands b !! cmd_name c with
  | Some _ => Raised (CommandRegistrationError (cmd_name c))
  | None =>
      Ok {| command_prefix := command_prefix b;
            all_commands := <[cmd_name c := c]> (all_commands b) |}
  end.

Definition and_then {A B} (o : Outcome A) (k : A -> Outcome B) : Outcome B :=
  match o with
  | Ok a => k a
  | Raised e => Raised e
  end.

(** The member converter on the argument text. *)
Definition convert_member (arg : string) : M Member :=
  fun w => match resolve_member (env w) arg with
           | Some m => (Ok m, w)
           | None => (Raised MemberNotFound, w)
           end.

(** How the library calls each callback.  [wisdom] and [help] declare no
    parameter after [ctx]; what follows the command word is ignored.
    [welcome] declares [member: discord.Member = None]: at the end of the
    input the default is passed, otherwise the converted argument. *)
Definition invoke_wisdom (ctx : Context) (rest : string) : M unit :=
  wisdom ctx.

Definition invoke_welcome (ctx : Context) (rest : string) : M unit :=
  match skip_ws rest with
  | "" => welcome ctx (Given None)
  | arg => m <- convert_member arg ;; welcome ctx (Given (Some m))
  end.

Definition invoke_help (ctx : Context) (rest : string) : M unit :=
  help ctx.

(** [@bot.command()] on [async def f]: registered under the function name. *)
Definition command (fname : string) (f : Context -> string -> M unit)
    (b : Bot) : Outcome Bot :=
  add_command {| cmd_name := fname; invoke := f |} b.

Definition command_names : list string := ["wisdom"; "welcome"; "help"].

(** The script up to [bot.run()], with the [help_command] it passes. *)
Definition build_bot (help_command : option (Context -> string -> M unit))
    : Outcome Bot :=
  let bot := Bot_new "lunaria!" help_command in
  and_then (command "wisdom" invoke_wisdom bot) (fun bot =>
  and_then (command "welcome" invoke_welcome bot) (fun bot =>
  command "help" invoke_help bot)).

Definition script_bot : Outcome Bot := build_bot None.

(** An inbound message event. *)
Record Inbound := { msg_content : string; msg_author : Member }.

(** [Bot.get_context]: the invoked word and the rest of the view, when the
    content starts with the prefix. *)
Definition get_context (b : Bot) (content : string) : option (string * string) :=
  match skip_string (command_prefix b) content with
  | None => None
  | Some r => Some (get_word r)
  end.

(** The command a message content selects, if any. *)
Definition resolve (b : Bot) (content : string) : option Command :=
  match get_context b content with
  | None => None
  | Some (invoker, _) => all_commands b !! invoker
  end.

(** [Bot.process_commands]: messages of bots are ignored; a non-empty word
    that names no command raises [CommandNotFound]. *)
Definition process_commands (b : Bot) (msg : Inbound) : M unit :=
  if is_bot (msg_author msg) then ret tt
  else match get_context b (msg_content msg) with
       | None => ret tt
       | Some (invoker, rest) =>
           match all_commands b !! invoker with
           | Some c => invoke c {| author := msg_author msg |} rest
           | None =>
               if decide (invoker = "") then ret tt
               else raise (CommandNotFound invoker)
           end
       end.

(** An error of a command is reported by the library and the loop goes on. *)
Definition reported (m : M unit) : M unit :=
  fun w => (Ok tt, snd (m w)).

Fixpoint event_loop (b : Bot) (inbound : list Inbound) : M unit :=
  match inbound with
  | [] => ret tt
  | msg :: rest =>
      _ <- reported (process_commands b msg) ;;
      event_loop b rest
  end.

Definition login (token : string) : M unit :=
  fun w => if accepts_token (env w) token then (Ok tt, w)
           else (Raised LoginFailure, w).

(** [Client.run(token)]: [token] has no default. *)
Definition Client_run (b : Bot) (token : Arg string) (inbound : list Inbound)
    : M unit :=
  t <- bind_required "token" token ;;
  _ <- login t ;;
  _ <- on_ready ;;
  event_loop b inbound.

(** The whole script: the registrations, then [bot.run()] with no argument. *)
Definition main (inbound : list Inbound) : M unit :=
  match script_bot with
  | Ok b => Client_run b Absent inbound
  | Raised e => raise e
  end.

(** [needle in hay] *)
Fixpoint contains (needle hay : string) : bool :=
  if String.prefix needle hay then true
  else match hay with
       | "" => false
       | String _ r => contains needle r
       end.

(** ** Reference values for the statements *)

(** The five replies of [wisdom]: the glyph prefix before each line. *)
Definition wisdom_responses : list Message :=
  (fun s => Content ("🔮 " +:+ s)) <$> wisdom_lines.

(** A world in which the generator returns [r] and nothing was sent yet. *)
Definition draw_world (r : nat) : World :=
  {| env := {| entropy := fun _ => r; transport := fun _ => true;
               accepts_token := fun _ => true; user_name := "";
               resolve_member := fun _ => None |};
     sent := []; stdout := []; cursor := 0 |}.

(** What [wisdom] sends when the generator returns [r]. *)
Definition wisdom_reply (ctx : Context) (r : nat) : list Message :=
  sent (snd (wisdom ctx (draw_world r))).

(** The description [welcome] builds around a mention string. *)
Definition welcome_text (m : string) : string :=
  "Welcome to **Lunaria**, " +:+ m +:+ "!" +:+ LF +:+
  "Let the code guide you through the void.".

Definition cmd_wisdom : Command :=
  {| cmd_name := "wisdom"; invoke := invoke_wisdom |}.
Definition cmd_welcome : Command :=
  {| cmd_name := "welcome"; invoke := invoke_welcome |}.
Definition cmd_help : Command :=
  {| cmd_name := "help"; invoke := invoke_help |}.

(** The bot the script has built when it reaches [bot.run()]. *)
Definition nyra_bot : Bot :=
  {| command_prefix := "lunaria!";
     all_commands :=
       <["help" := cmd_help]> (<["welcome" := cmd_welcome]>
         (<["wisdom" := cmd_wisdom]> ∅)) |}.

(** Bytes that are neither white space nor the first byte of an encoded
    white space character: above U+0020 and below 0xC2. *)
Definition plain_byte (a : Ascii.ascii) : bool :=
  ((32 <? Ascii.N_of_ascii a) && (Ascii.N_of_ascii a <? 0xC2))%N.

Fixpoint plain_word (s : string) : bool :=
  match s with
  | "" => true
  | String a r => plain_byte a && plain_word r
  end.

(** Sample users and a sample world for the concrete runs below. *)
Definition luna : Member := {| mention := "<@1001>"; is_bot := false |}.
Definition sol : Member := {| mention := "<@2002>"; is_bot := false |}.

Definition sample_ctx : Context := {| author := luna |}.

Definition sample_world : World :=
  {| env := {| entropy := fun n => n + 7;
               transport := fun _ => true;
               accepts_token := fun _ => true;
               user_name := "Nyra";
               resolve_member :=
                 fun s => if String.eqb s "<@2002>" then Some sol else None |};
     sent := []; stdout := []; cursor := 0 |}.

(** The embed [help] sends. *)
Definition help_embed : Embed :=
  {| title := Some "📜 Nyra's Grimoire of Commands";
     description := None;
     color := Some 0xaab6ff%Z;
     footer := Some "More spells soon to be discovered...";
     fields := [
       {| name := "lunaria!wisdom";
          value := "Receive a cryptic line of code-sorcery.";
          inline := false |};
       {| name := "lunaria!welcome [@user]";
          value := "Manually invoke the welcome ritual.";
          inline := false |} ] |}.

(** The embed [welcome] sends around a mention string. *)
Definition welcome_embed (m : string) : Embed :=
  {| title := Some "🌙 A new star rises...";
     description := Some (welcome_text m);
     color := Some 0x9e91ff%Z;
     footer := Some "Nyra, Guardian of the Grimoire";
     fields := [] |}.


(** The reply of [wisdom] for the [k]-th value of the generator. *)
Definition wisdom_at (e : Env) (k : nat) : Message :=
  Content ("🔮 " +:+ default "" (wisdom_lines !! (entropy e k mod 5))).

(** Text replies, as opposed to embeds. *)
Definition is_text (m : Message) : bool :=
  match m with
  | Content _ => true
  | Rich _ => false
  end.

(** The replies the three handlers can produce. *)
Definition bot_reply (m : Message) : Prop :=
  m ∈ wisdom_responses
  \/ m = Rich help_embed
  \/ exists s, m = Rich (welcome_embed s).

(** The world after one more message [m] went out; a text reply has taken
    one value from the generator. *)
Definition replied (m : Message) (w : World) : World :=
  {| env := env w; sent := sent w ++ [m]; stdout := stdout w;
     cursor := if is_text m then S (cursor w) else cursor w |}.

(** A message whose content is the prefix, the command word [word] and then
    nothing or white space followed by [rest]. *)
Definition calls (word rest : string) (msg : Inbound) : Prop :=
  is_bot (msg_author msg) = false
  /\ msg_content msg = "lunaria!" +:+ word +:+ rest
  /\ (rest = "" \/ isspace_at rest = true).

#[global] Instance EmbedField_eq_dec : EqDecision EmbedField.
Proof. solve_decision. Defined.

#[global] Instance Embed_eq_dec : EqDecision Embed.
Proof. solve_decision. Defined.

#[global] Instance Message_eq_dec : EqDecision Message.
Proof. solve_decision. Defined.

(** ** Strings *)

Section Strings.

Lemma append_cons (c : Ascii.ascii) (a b : string) :
  String c a +:+ b = String c (a +:+ b).
Proof. reflexivity. Qed.

Lemma append_empty_l (a : string) : "" +:+ a = a.
Proof. reflexivity. Qed.

Lemma append_length (a b : string) :
  String.length (a +:+ b) = String.length a + String.length b.
Proof.
  induction a as [|c a IH]; [reflexivity |].
  rewrite append_cons. cbn. now rewrite IH.
Qed.

Lemma append_assoc (a b c : string) : (a +:+ b) +:+ c = a +:+ (b +:+ c).
Proof.
  induction a as [|x a IH]; [reflexivity |].
  rewrite !append_cons. now rewrite IH.
Qed.


(** Cancellation of a common suffix. *)
Lemma append_inj_r (a b post : string) : a +:+ post = b +:+ post -> a = b.
Proof.
  revert b. induction a as [|x a IH]; intros [|y b] H.
  - reflexivity.
  - apply (f_equal String.length) in H.
    rewrite append_cons, append_empty_l in H. cbn in H.
    rewrite append_length in H. lia.
  - apply (f_equal String.length) in H.
    rewrite append_cons, append_empty_l in H. cbn in H.
    rewrite append_length in H. lia.
  - rewrite !append_cons in H. injection H as -> H. f_equal. now apply IH.
Qed.

Lemma prefix_append (p r : string) : String.prefix p (p +:+ r) = true.
Proof.
  induction p as [|c p IH].
  - now destruct r.
  - rewrite append_cons. cbn.
    destruct (Ascii.ascii_dec c c); [exact IH | congruence].
Qed.

Lemma prefix_inv (p s : string) :
  String.prefix p s = true -> exists r, s = p +:+ r.
Proof.
  revert s. induction p as [|c p IH]; intros s H.
  - now exists s.
  - destruct s as [|d s]; cbn in H; [discriminate |].
    destruct (Ascii.ascii_dec c d) as [->|]; [| discriminate].
    destruct (IH _ H) as [r ->]. now exists r.
Qed.

(** [contains] decides the substring relation. *)
Lemma contains_spec (needle hay : string) :
  contains needle hay = true <-> exists l r, hay = l +:+ needle +:+ r.
Proof.
  split.
  - induction hay as [|c hay IH]; cbn [contains].
    + destruct (String.prefix needle "") eqn:E; [| discriminate].
      intros _. destruct (prefix_inv _ _ E) as [r Hr]. now exists "", r.
    + destruct (String.prefix needle (String c hay)) eqn:E.
      * intros _. destruct (prefix_inv _ _ E) as [r Hr]. now exists "", r.
      * intros H. destruct (IH H) as (l & r & ->). now exists (String c l), r.
  - intros (l & r & ->). induction l as [|c l IH].
    + rewrite append_empty_l.
      destruct (needle +:+ r) eqn:E; cbn [contains];
        rewrite <- E, prefix_append; reflexivity.
    + rewrite append_cons. cbn [contains]. rewrite IH.
      now destruct (String.prefix _ _).
Qed.

Lemma contains_infix (l needle r : string) :
  contains needle (l +:+ needle +:+ r) = true.
Proof. apply contains_spec. now exists l, r. Qed.

End Strings.

(** ** Running the primitives *)

Section Effects.

Lemma send_sent (m : Message) (w : World) :
  sent (snd (send m w)) = sent w ++ [m].
Proof. unfold send. now destruct (transport _ _). Qed.

Lemma send_outcome (m : Message) (w : World) :
  fst (send m w)
  = if transport (env w) (length (sent w)) then Ok tt else Raised HTTPException.
Proof. unfold send. now destruct (transport _ _). Qed.

Lemma send_frame (m : Message) (w : World) :
  env (snd (send m w)) = env w
  /\ stdout (snd (send m w)) = stdout w
  /\ cursor (snd (send m w)) = cursor w.
Proof. unfold send. now destruct (transport _ _). Qed.

(** [random.choice] on the five lines: never [IndexError], one draw. *)
Lemma choice_lines (w : World) :
  exists s,
    wisdom_lines !! (entropy (env w) (cursor w) mod 5) = Some s
    /\ choice wisdom_lines w
       = (Ok s, {| env := env w; sent := sent w; stdout := stdout w;
                   cursor := S (cursor w) |}).
Proof.
  unfold choice, wisdom_lines, bind, randbelow. cbn [length].
  pose proof (Nat.mod_upper_bound (entropy (env w) (cursor w)) 5) as Hlt.
  destruct (entropy (env w) (cursor w) mod 5) as [|[|[|[|[|i]]]]];
    [eexists; split; reflexivity .. | lia].
Qed.

Lemma wisdom_run (ctx : Context) (w : World) :
  exists s,
    wisdom_lines !! (entropy (env w) (cursor w) mod 5) = Some s
    /\ wisdom ctx w
       = send (Content ("🔮 " +:+ s))
              {| env := env w; sent := sent w; stdout := stdout w;
                 cursor := S (cursor w) |}.
Proof.
  destruct (choice_lines w) as (s & Hs & Hc). exists s. split; [exact Hs |].
  unfold wisdom, bind. now rewrite Hc.
Qed.

End Effects.

(** ** The handlers *)

Section Handlers.

Lemma wisdom_responses_nodup : NoDup wisdom_responses.
Proof.
  unfold wisdom_responses. apply NoDup_fmap_2.
  - intros a b H. injection H as H. exact (String.app_inj _ _ _ H).
  - apply (bool_decide_unpack _). vm_compute. reflexivity.
Qed.

(** The message [help] sends. *)
Lemma help_run (ctx : Context) (w : World) :
  help ctx w
  = send (Rich {| title := Some "📜 Nyra's Grimoire of Commands";
                  description := None;
                  color := Some 0xaab6ff%Z;
                  footer := Some "More spells soon to be discovered...";
                  fields := [
                    {| name := "lunaria!wisdom";
                       value := "Receive a cryptic line of code-sorcery.";
                       inline := false |};
                    {| name := "lunaria!welcome [@user]";
                       value := "Manually invoke the welcome ritual.";
                       inline := false |} ] |}) w.
Proof. reflexivity. Qed.

(** The message [welcome] sends, by the argument it is called with. *)
Lemma welcome_run (ctx : Context) (member_arg : Arg (option Member)) (w : World) :
  welcome ctx member_arg w
  = send (Rich {| title := Some "🌙 A new star rises...";
                  description :=
                    Some (welcome_text
                            (mention (py_or (bind_default None member_arg)
                                            (author ctx))));
                  color := Some 0x9e91ff%Z;
                  footer := Some "Nyra, Guardian of the Grimoire";
                  fields := [] |}) w.
Proof. reflexivity. Qed.

Lemma welcome_text_contains (m : string) : contains m (welcome_text m) = true.
Proof. unfold welcome_text. apply contains_infix. Qed.

Lemma welcome_text_inj (a b : string) :
  welcome_text a = welcome_text b -> a = b.
Proof.
  unfold welcome_text. intros H.
  apply String.app_inj in H. exact (append_inj_r _ _ _ H).
Qed.

End Handlers.

(** ** Registration and dispatch *)

Section Dispatch.

Lemma script_bot_eq : script_bot = Ok nyra_bot.
Proof.
  unfold script_bot, build_bot, command, add_command, and_then, Bot_new.
  cbn [all_commands command_prefix cmd_name].
  rewrite lookup_empty. cbn [all_commands command_prefix cmd_name].
  rewrite lookup_insert_ne, lookup_empty by discriminate.
  cbn [all_commands command_prefix cmd_name].
  rewrite !lookup_insert_ne, lookup_empty by discriminate.
  reflexivity.
Qed.

(** With a help command installed, the script's own [help] is refused. *)
Lemma build_bot_default_help (h : Context -> string -> M unit) :
  build_bot (Some h) = Raised (CommandRegistrationError "help").
Proof.
  unfold build_bot, command, add_command, and_then, Bot_new.
  cbn [all_commands command_prefix cmd_name].
  rewrite lookup_singleton_ne by discriminate.
  cbn [all_commands command_prefix cmd_name].
  rewrite lookup_insert_ne, lookup_singleton_ne by discriminate.
  cbn [all_commands command_prefix cmd_name].
  rewrite !lookup_insert_ne, lookup_singleton_eq by discriminate.
  reflexivity.
Qed.

Lemma nyra_lookup (word : string) (c : Command) :
  all_commands nyra_bot !! word = Some c ->
  word ∈ command_names /\ cmd_name c = word.
Proof.
  unfold nyra_bot, command_names. cbn [all_commands].
  rewrite !lookup_insert. repeat case_decide; subst;
    rewrite ?lookup_empty; intros Hc; inversion Hc; subst;
    (split; [set_solver | reflexivity]).
Qed.

Lemma nyra_lookup_wisdom : all_commands nyra_bot !! "wisdom" = Some cmd_wisdom.
Proof.
  unfold nyra_bot. cbn [all_commands].
  rewrite !lookup_insert_ne, lookup_insert_eq by discriminate. reflexivity.
Qed.

Lemma nyra_lookup_welcome :
  all_commands nyra_bot !! "welcome" = Some cmd_welcome.
Proof.
  unfold nyra_bot. cbn [all_commands].
  rewrite lookup_insert_ne, lookup_insert_eq by discriminate. reflexivity.
Qed.

Lemma nyra_lookup_help : all_commands nyra_bot !! "help" = Some cmd_help.
Proof. unfold nyra_bot. cbn [all_commands]. apply lookup_insert_eq. Qed.

Lemma nyra_lookup_other (word : string) :
  word ∉ command_names -> all_commands nyra_bot !! word = None.
Proof.
  intros Hn. destruct (all_commands nyra_bot !! word) as [c|] eqn:E;
    [| reflexivity].
  destruct (nyra_lookup _ _ E) as [Hin _]. contradiction.
Qed.

Lemma skip_string_spec (p s r : string) :
  skip_string p s = Some r <-> s = p +:+ r.
Proof.
  revert s. induction p as [|a p IH]; intros s; cbn [skip_string].
  - rewrite append_empty_l. split; [now intros [= ->] | now intros ->].
  - rewrite append_cons. destruct s as [|b s].
    + split; discriminate.
    + destruct (Ascii.eqb_spec a b) as [->|Hne].
      * rewrite IH. split; [now intros -> | now intros [= ->]].
      * split; [discriminate | intros [= E _]; now destruct Hne].
Qed.

(** The word [get_word] returns is a prefix of the view, and the view
    either ends after it or goes on with a white space character. *)
Lemma get_word_spec (s word rest : string) :
  get_word s = (word, rest) ->
  s = word +:+ rest /\ (rest = "" \/ isspace_at rest = true).
Proof.
  revert word. induction s as [|a s IH]; intros word; cbn [get_word].
  - intros [= <- <-]. split; [reflexivity | now left].
  - destruct (isspace_at (String a s)) eqn:E.
    + intros [= <- <-]. split; [reflexivity | now right].
    + destruct (get_word s) as [w' r'] eqn:G. intros [= <- <-].
      destruct (IH _ eq_refl) as [-> Hb]. split; [reflexivity | exact Hb].
Qed.

Lemma plain_byte_no_space (a : Ascii.ascii) (r : string) :
  plain_byte a = true -> isspace_at (String a r) = false.
Proof.
  unfold plain_byte, isspace_at, space_len. intros H.
  apply andb_true_iff in H as [H1 H2].
  apply N.ltb_lt in H1. apply N.ltb_lt in H2.
  set (x := Ascii.N_of_ascii a) in *.
  replace (x <=? 13)%N with false by (symmetry; apply N.leb_gt; lia).
  replace (x <=? 32)%N with false by (symmetry; apply N.leb_gt; lia).
  replace (x =? 0xC2)%N with false by (symmetry; apply N.eqb_neq; lia).
  replace (x =? 0xE1)%N with false by (symmetry; apply N.eqb_neq; lia).
  replace (x =? 0xE2)%N with false by (symmetry; apply N.eqb_neq; lia).
  replace (x =? 0xE3)%N with false by (symmetry; apply N.eqb_neq; lia).
  rewrite !andb_false_r. cbn [orb andb].
  destruct r as [|b [|c r]]; reflexivity.
Qed.

(** A word of plain bytes followed by a boundary is read back whole. *)
Lemma get_word_plain (word rest : string) :
  plain_word word = true ->
  rest = "" \/ isspace_at rest = true ->
  get_word (word +:+ rest) = (word, rest).
Proof.
  intros Hp Hb. induction word as [|a word IH].
  - rewrite append_empty_l. destruct Hb as [->|Hb]; [reflexivity |].
    destruct rest as [|b rest]; [reflexivity |].
    cbn [get_word]. now rewrite Hb.
  - cbn [plain_word] in Hp. apply andb_true_iff in Hp as [Ha Hw].
    rewrite append_cons. cbn [get_word].
    rewrite (plain_byte_no_space _ _ Ha), (IH Hw). reflexivity.
Qed.

(** A message that selects a command is the prefix, the exact name under
    which the command is registered, and then nothing or white space. *)
Lemma resolve_exact (b : Bot) (content : string) (c : Command) :
  resolve b content = Some c ->
  exists word rest,
    content = command_prefix b +:+ word +:+ rest
    /\ (rest = "" \/ isspace_at rest = true)
    /\ all_commands b !! word = Some c.
Proof.
  unfold resolve, get_context.
  destruct (skip_string (command_prefix b) content) as [r|] eqn:Hs;
    [| discriminate].
  destruct (get_word r) as [word rest] eqn:Hw. intros Hl.
  apply skip_string_spec in Hs. apply get_word_spec in Hw as [-> Hb].
  now exists word, rest.
Qed.

Lemma resolve_plain (b : Bot) (word rest : string) :
  plain_word word = true ->
  rest = "" \/ isspace_at rest = true ->
  resolve b (command_prefix b +:+ word +:+ rest) = all_commands b !! word.
Proof.
  intros Hp Hb. unfold resolve, get_context.
  rewrite (proj2 (skip_string_spec _ _ _) eq_refl).
  now rewrite (get_word_plain _ _ Hp Hb).
Qed.

(** A message that selects no command changes nothing. *)
Lemma process_unresolved (b : Bot) (msg : Inbound) (w : World) :
  resolve b (msg_content msg) = None ->
  snd (process_commands b msg w) = w.
Proof.
  unfold resolve, process_commands. destruct (is_bot (msg_author msg));
    [reflexivity |].
  destruct (get_context b (msg_content msg)) as [[word rest]|];
    [| reflexivity].
  intros ->. now case_decide.
Qed.

(** A message that selects a command, sent by a user, runs its callback. *)
Lemma process_resolved (b : Bot) (msg : Inbound) (c : Command) (w : World) :
  is_bot (msg_author msg) = false ->
  resolve b (msg_content msg) = Some c ->
  exists rest,
    process_commands b msg w = invoke c {| author := msg_author msg |} rest w.
Proof.
  unfold resolve, process_commands. intros ->.
  destruct (get_context b (msg_content msg)) as [[word rest]|];
    [| discriminate].
  intros ->. now exists rest.
Qed.

End Dispatch.

(** ** Concrete runs *)

Section Runs.

Example wisdom_sample :
  sent (snd (wisdom sample_ctx sample_world))
  = [Content "🔮 Modules are fragments of the soul, split but eternal."].
Proof. reflexivity. Qed.

Example welcome_sample_target :
  sent (snd (welcome sample_ctx (Given (Some sol)) sample_world))
  = [Rich {| title := Some "🌙 A new star rises...";
             description :=
               Some ("Welcome to **Lunaria**, <@2002>!" +:+ LF +:+
                     "Let the code guide you through the void.");
             color := Some 10392063%Z;
             footer := Some "Nyra, Guardian of the Grimoire";
             fields := [] |}].
Proof. reflexivity. Qed.

Example welcome_sample_default :
  (fun m => match m with Rich e => description e | Content _ => None end)
    <$> sent (snd (welcome sample_ctx Absent sample_world))
  = [Some ("Welcome to **Lunaria**, <@1001>!" +:+ LF +:+
           "Let the code guide you through the void.")].
Proof. reflexivity. Qed.

Example get_context_samples :
  get_context nyra_bot "lunaria!wisdomX" = Some ("wisdomX", "")
  /\ get_context nyra_bot "lunaria!wisdom now" = Some ("wisdom", " now")
  /\ get_context nyra_bot "lunaria! wisdom" = Some ("", " wisdom")
  /\ get_context nyra_bot "Lunaria!wisdom" = None.
Proof. repeat split; reflexivity. Qed.

(** A member argument is converted and welcomed; an unknown one and an
    unknown command are reported and send nothing. *)
Example event_loop_sample :
  length (sent (snd (event_loop nyra_bot
    [ {| msg_content := "lunaria!wisdom"; msg_author := luna |};
      {| msg_content := "lunaria!welcome  <@2002>"; msg_author := luna |};
      {| msg_content := "lunaria!welcome <@3003>"; msg_author := luna |};
      {| msg_content := "lunaria!wisdomX"; msg_author := luna |};
      {| msg_content := "lunaria!help"; msg_author := luna |} ]
    sample_world))) = 3.
Proof. vm_compute. reflexivity. Qed.

Example main_sample :
  main [ {| msg_content := "lunaria!help"; msg_author := luna |} ] sample_world
  = (Raised (TypeError "token"), sample_world).
Proof. vm_compute. reflexivity. Qed.

(** With a token the platform accepts, [on_ready] prints its line and the
    loop answers. *)
Example run_with_token_sample :
  (fun r => (fst r, stdout (snd r), length (sent (snd r))))
    (Client_run nyra_bot (Given "token-value")
       [ {| msg_content := "lunaria!help"; msg_author := luna |} ]
       sample_world)
  = (Ok tt, ["🌑 Nyra has awakened... Connected as Nyra"], 1).
Proof. vm_compute. reflexivity. Qed.

End Runs.

(** C1. Every invocation of [wisdom] sends the glyph prefix followed by the
    line of the fixed five-line list at the position the generator returned
    (a value in 0..4), so the message lies in the five-element set of
    replies.  The five replies are pairwise distinct and each of the five
    equally likely values of the generator produces a different one: every
    reply is sent for exactly one of them. *)
Theorem wisdom_sends_one_of_five (ctx : Context) (w : World) :
  (exists s,
      wisdom_lines !! (entropy (env w) (cursor w) mod 5) = Some s
      /\ sent (snd (wisdom ctx w)) = sent w ++ [Content ("🔮 " +:+ s)]
      /\ Content ("🔮 " +:+ s) ∈ wisdom_responses)
  /\ length wisdom_lines = 5
  /\ length wisdom_responses = 5
  /\ NoDup wisdom_responses
  /\ Forall (fun m =>
               length (filter (fun r => wisdom_reply ctx r = [m]) (seq 0 5)) = 1)
            wisdom_responses.
Proof.
  split; [| split; [reflexivity | split; [reflexivity | split]]].
  - destruct (wisdom_run ctx w) as (s & Hs & Hrun). exists s.
    split; [exact Hs | split].
    + rewrite Hrun, send_sent. reflexivity.
    + unfold wisdom_responses. apply list_elem_of_fmap. exists s.
      split; [reflexivity |]. eapply list_elem_of_lookup_2. exact Hs.
  - exact wisdom_responses_nodup.
  - unfold wisdom_responses, wisdom_lines. cbn [fmap list_fmap].
    repeat constructor; vm_compute; reflexivity.
Qed.

(** C4. The embed [help] sends has exactly two fields, named
    "lunaria!wisdom" and "lunaria!welcome [@user]", in this order. *)
Theorem help_lists_two_commands (ctx : Context) (w : World) :
  exists e,
    sent (snd (help ctx w)) = sent w ++ [Rich e]
    /\ length (fields e) = 2
    /\ name <$> fields e = ["lunaria!wisdom"; "lunaria!welcome [@user]"].
Proof.
  rewrite help_run, send_sent. eexists. split; [reflexivity |].
  split; reflexivity.
Qed.

(** C7. [wisdom] and [help] raise nothing of their own: in every world each
    hands exactly one message to the transport, and the outcome is an error
    only when the transport fails that very send.  Nothing is printed and
    the environment is untouched; [wisdom] takes one value from the
    generator (the choice it makes), [help] takes none. *)
Theorem wisdom_help_never_fail (ctx : Context) (w : World) :
  let delivered :=
    if transport (env w) (length (sent w)) then Ok tt else Raised HTTPException in
  (exists m,
      snd (wisdom ctx w)
      = {| env := env w; sent := sent w ++ [m]; stdout := stdout w;
           cursor := S (cursor w) |}
      /\ fst (wisdom ctx w) = delivered)
  /\ (exists m,
      snd (help ctx w)
      = {| env := env w; sent := sent w ++ [m]; stdout := stdout w;
           cursor := cursor w |}
      /\ fst (help ctx w) = delivered).
Proof.
  cbv zeta. split.
  - destruct (wisdom_run ctx w) as (s & _ & ->). eexists.
    unfold send. cbn [env sent stdout cursor].
    destruct (transport (env w) (length (sent w))); split; reflexivity.
  - rewrite help_run. eexists. unfold send.
    destruct (transport (env w) (length (sent w))); split; reflexivity.
Qed.

(** C10. Any two invocations of [help], whatever the contexts and the
    worlds, send the same embed: title "📜 Nyra's Grimoire of Commands", no
    description, color 0xaab6ff, the same two fields in the same order and
    the footer "More spells soon to be discovered...". *)
Theorem help_deterministic (ctx1 ctx2 : Context) (w1 w2 : World) :
  exists e,
    sent (snd (help ctx1 w1)) = sent w1 ++ [Rich e]
    /\ sent (snd (help ctx2 w2)) = sent w2 ++ [Rich e]
    /\ title e = Some "📜 Nyra's Grimoire of Commands"
    /\ description e = None
    /\ color e = Some 0xaab6ff%Z
    /\ fields e = [ {| name := "lunaria!wisdom";
                       value := "Receive a cryptic line of code-sorcery.";
                       inline := false |};
                    {| name := "lunaria!welcome [@user]";
                       value := "Manually invoke the welcome ritual.";
                       inline := false |} ]
    /\ footer e = Some "More spells soon to be discovered...".
Proof.
  rewrite !help_run, !send_sent. eexists.
  repeat split; reflexivity.
Qed.

(** C2. Called with an explicit target, [welcome] sends an embed whose
    description is the welcome text around the target's mention, hence
    contains it.  The invoker plays no part: the run is the same under any
    other context, and the description is the one that would name the
    invoker only when the two mention strings are equal. *)
Theorem welcome_mentions_explicit_target
    (ctx : Context) (target : Member) (w : World) :
  exists e d,
    sent (snd (welcome ctx (Given (Some target)) w)) = sent w ++ [Rich e]
    /\ description e = Some d
    /\ d = welcome_text (mention target)
    /\ contains (mention target) d = true
    /\ (d = welcome_text (mention (author ctx))
        <-> mention target = mention (author ctx))
    /\ (forall ctx',
          welcome ctx' (Given (Some target)) w
          = welcome ctx (Given (Some target)) w).
Proof.
  rewrite welcome_run, send_sent. cbn [bind_default py_or].
  eexists. exists (welcome_text (mention target)).
  split; [reflexivity |]. split; [reflexivity |]. split; [reflexivity |].
  split; [apply welcome_text_contains |]. split.
  - split; [apply welcome_text_inj | now intros ->].
  - intros ctx'. rewrite !welcome_run. reflexivity.
Qed.

(** C3. Called with no target, [welcome] sends an embed whose description is
    the welcome text around the mention of [ctx.author], hence contains it;
    this is also what a message with nothing after the command word gives. *)
Theorem welcome_defaults_to_invoker (ctx : Context) (w : World) :
  exists e d,
    sent (snd (welcome ctx Absent w)) = sent w ++ [Rich e]
    /\ description e = Some d
    /\ d = welcome_text (mention (author ctx))
    /\ contains (mention (author ctx)) d = true
    /\ sent (snd (invoke_welcome ctx "" w)) = sent w ++ [Rich e].
Proof.
  unfold invoke_welcome. cbn [skip_ws skip_ws_from].
  rewrite !welcome_run. cbn [bind_default py_or]. rewrite !send_sent.
  eexists. exists (welcome_text (mention (author ctx))).
  split; [reflexivity |]. split; [reflexivity |]. split; [reflexivity |].
  split; [apply welcome_text_contains | reflexivity].
Qed.

(** C9. [welcome] called with [None] as the target runs exactly as when the
    argument is left out: in both cases [member or ctx.author] is the
    invoker, and the description of the embed sent is the welcome text
    around the invoker's mention. *)
Theorem welcome_none_same_as_absent (ctx : Context) (w : World) :
  welcome ctx (Given None) w = welcome ctx Absent w
  /\ py_or (bind_default None (Given None)) (author ctx) = author ctx
  /\ py_or (bind_default None Absent) (author ctx) = author ctx
  /\ exists e,
      sent (snd (welcome ctx (Given None) w)) = sent w ++ [Rich e]
      /\ sent (snd (welcome ctx Absent w)) = sent w ++ [Rich e]
      /\ description e = Some (welcome_text (mention (author ctx))).
Proof.
  split; [reflexivity |]. split; [reflexivity |]. split; [reflexivity |].
  rewrite !welcome_run. cbn [bind_default py_or]. rewrite !send_sent.
  eexists. repeat split; reflexivity.
Qed.

(** C5. The three names the script registers, "wisdom", "welcome" and
    "help", are pairwise distinct, and with [help_command=None] every
    registration succeeds: the table then holds exactly these three keys,
    each bound to the command made from the function of that name.  Had a
    help command been installed, registering the script's [help] would have
    raised.  The event loop passes this one table from message to message;
    no handler can reach it. *)
Theorem command_names_unique :
  NoDup command_names
  /\ exists b,
      script_bot = Ok b
      /\ dom (all_commands b) = list_to_set command_names
      /\ size (all_commands b) = 3
      /\ all_commands b !! "wisdom" = Some cmd_wisdom
      /\ all_commands b !! "welcome" = Some cmd_welcome
      /\ all_commands b !! "help" = Some cmd_help
      /\ (forall word c,
            all_commands b !! word = Some c ->
            word ∈ command_names /\ cmd_name c = word)
      /\ (forall h, build_bot (Some h) = Raised (CommandRegistrationError "help"))
      /\ (forall msg rest w,
            event_loop b (msg :: rest) w
            = event_loop b rest (snd (process_commands b msg w))).
Proof.
  split.
  - apply (bool_decide_unpack _). vm_compute. reflexivity.
  - exists nyra_bot. split; [exact script_bot_eq |]. split; [| split].
    + unfold nyra_bot, command_names. cbn [all_commands list_to_set].
      rewrite !dom_insert_L, dom_empty_L. set_solver.
    + unfold nyra_bot. cbn [all_commands].
      rewrite !map_size_insert_None, map_size_empty;
        rewrite ?lookup_insert_ne, ?lookup_empty by discriminate; reflexivity.
    + split; [exact nyra_lookup_wisdom |].
      split; [exact nyra_lookup_welcome |].
      split; [exact nyra_lookup_help |].
      split; [exact nyra_lookup |].
      split; [exact build_bot_default_help |].
      reflexivity.
Qed.

(** C6. On the bot the script builds, a message selects a command only when
    it is the prefix "lunaria!", then a registered name character for
    character, then nothing or white space; the name "wisdom" followed by a
    boundary does select [wisdom].  A message that selects no command leaves
    the world as it is.  "lunaria!wisdomX" selects none: processing it sends
    nothing and takes nothing from the generator. *)
Theorem dispatch_exact_match :
  exists b,
    script_bot = Ok b
    /\ (forall content c,
          resolve b content = Some c ->
          exists word rest,
            content = "lunaria!" +:+ word +:+ rest
            /\ (rest = "" \/ isspace_at rest = true)
            /\ word ∈ command_names
            /\ all_commands b !! word = Some c
            /\ cmd_name c = word)
    /\ (forall rest,
          rest = "" \/ isspace_at rest = true ->
          resolve b ("lunaria!wisdom" +:+ rest) = Some cmd_wisdom)
    /\ (forall msg w,
          resolve b (msg_content msg) = None ->
          snd (process_commands b msg w) = w)
    /\ resolve b "lunaria!wisdomX" = None
    /\ (forall a w,
          snd (process_commands b
                 {| msg_content := "lunaria!wisdomX"; msg_author := a |} w) = w).
Proof.
  assert (HX : resolve nyra_bot "lunaria!wisdomX" = None).
  { change "lunaria!wisdomX" with (command_prefix nyra_bot +:+ "wisdomX" +:+ "").
    rewrite resolve_plain; [| reflexivity | now left].
    apply nyra_lookup_other. apply (bool_decide_unpack _). vm_compute.
    reflexivity. }
  exists nyra_bot. split; [exact script_bot_eq |]. split; [| split; [| split]].
  - intros content c Hr.
    destruct (resolve_exact _ _ _ Hr) as (word & rest & Hc & Hb & Hl).
    destruct (nyra_lookup _ _ Hl) as [Hin Hn].
    exists word, rest. repeat split; assumption.
  - intros rest Hb.
    change ("lunaria!wisdom" +:+ rest)
      with (command_prefix nyra_bot +:+ "wisdom" +:+ rest).
    rewrite resolve_plain; [exact nyra_lookup_wisdom | reflexivity | exact Hb].
  - intros msg w. apply process_unresolved.
  - split; [exact HX |]. intros a w. now apply process_unresolved.
Qed.

(** C8. The script calls [bot.run()] without a token.  The call fails on
    the binding of the required parameter, with a [TypeError] that names
    [token], whatever messages would have arrived: nothing is sent, nothing
    is printed and no value is taken from the generator, so no handler has
    run.  With a token the platform accepts, the same bot does answer: a
    "lunaria!help" from a user is replied to with one message. *)
Theorem startup_without_token_fails_fast (inbound : list Inbound) (w : World) :
  main inbound w = (Raised (TypeError "token"), w)
  /\ exists b,
      script_bot = Ok b
      /\ Client_run b Absent inbound w = (Raised (TypeError "token"), w)
      /\ (forall t a,
            accepts_token (env w) t = true ->
            is_bot a = false ->
            exists m,
              sent (snd (Client_run b (Given t)
                           [{| msg_content := "lunaria!help"; msg_author := a |}]
                           w))
              = sent w ++ [m]).
Proof.
  split.
  - unfold main. rewrite script_bot_eq. reflexivity.
  - exists nyra_bot. split; [exact script_bot_eq |]. split; [reflexivity |].
    intros t a Hacc Hbot.
    unfold Client_run, bind, bind_required, ret, login. rewrite Hacc.
    unfold on_ready, print. cbn [event_loop]. unfold bind, reported, ret.
    set (msg := {| msg_content := "lunaria!help"; msg_author := a |}).
    set (w1 := {| env := env w; sent := sent w; stdout := _; cursor := _ |}).
    assert (Hr : resolve nyra_bot (msg_content msg) = Some cmd_help).
    { change (msg_content msg) with (command_prefix nyra_bot +:+ "help" +:+ "").
      rewrite resolve_plain; [exact nyra_lookup_help | reflexivity | now left]. }
    destruct (process_resolved nyra_bot msg cmd_help w1 Hbot Hr) as [rest ->].
    cbn [invoke cmd_help]. unfold invoke_help. cbn [snd].
    rewrite help_run, send_sent. eexists. reflexivity.
Qed.

(** ** One step of the event loop on the script's bot *)

Section Step.

Lemma nyra_lookup_cases (word : string) (c : Command) :
  all_commands nyra_bot !! word = Some c ->
  c = cmd_wisdom \/ c = cmd_welcome \/ c = cmd_help.
Proof.
  unfold nyra_bot. cbn [all_commands].
  rewrite !lookup_insert. repeat case_decide; rewrite ?lookup_empty;
    intros Hc; inversion Hc; auto.
Qed.

(** A call of a registered word by a user runs the callback on the text
    after the word. *)
Lemma process_plain (msg : Inbound) (word rest : string) (c : Command) (w : World) :
  calls word rest msg ->
  plain_word word = true ->
  all_commands nyra_bot !! word = Some c ->
  process_commands nyra_bot msg w
  = invoke c {| author := msg_author msg |} rest w.
Proof.
  intros (Hbot & Hc & Hb) Hp Hl. unfold process_commands, get_context.
  rewrite Hbot, Hc.
  change "lunaria!" with (command_prefix nyra_bot).
  rewrite (proj2 (skip_string_spec _ _ _) eq_refl).
  rewrite (get_word_plain _ _ Hp Hb). now rewrite Hl.
Qed.

Lemma wisdom_replied (ctx : Context) (w : World) :
  snd (wisdom ctx w) = replied (wisdom_at (env w) (cursor w)) w.
Proof.
  destruct (wisdom_run ctx w) as (s & Hs & ->).
  unfold wisdom_at. rewrite Hs. unfold send, replied.
  cbn [env sent stdout cursor default is_text from_option id].
  now destruct (transport _ _).
Qed.

Lemma help_replied (ctx : Context) (w : World) :
  snd (help ctx w) = replied (Rich help_embed) w.
Proof. rewrite help_run. unfold send, replied. now destruct (transport _ _). Qed.

Lemma welcome_replied (ctx : Context) (a : Arg (option Member)) (w : World) :
  snd (welcome ctx a w)
  = replied (Rich (welcome_embed
                     (mention (py_or (bind_default None a) (author ctx))))) w.
Proof.
  rewrite welcome_run. unfold send, replied. now destruct (transport _ _).
Qed.

Lemma wisdom_at_reply (e : Env) (k : nat) : bot_reply (wisdom_at e k).
Proof.
  left. unfold wisdom_at, wisdom_responses.
  pose proof (Nat.mod_upper_bound (entropy e k) 5) as Hlt.
  destruct (entropy e k mod 5) as [|[|[|[|[|i]]]]];
    [cbn; set_solver .. | lia].
Qed.

(** What processing one message does to the world: nothing, or exactly one
    reply of the three handlers. *)
Lemma process_nyra_step (msg : Inbound) (w : World) :
  snd (process_commands nyra_bot msg w) = w
  \/ exists m,
      bot_reply m /\ snd (process_commands nyra_bot msg w) = replied m w.
Proof.
  unfold process_commands.
  destruct (is_bot (msg_author msg)); [now left |].
  destruct (get_context nyra_bot (msg_content msg)) as [[word rest]|];
    [| now left].
  destruct (all_commands nyra_bot !! word) as [c|] eqn:Hl.
  - destruct (nyra_lookup_cases _ _ Hl) as [-> | [-> | ->]].
    + right. exists (wisdom_at (env w) (cursor w)).
      split; [apply wisdom_at_reply | apply wisdom_replied].
    + cbn [invoke cmd_welcome]. unfold invoke_welcome.
      destruct (skip_ws rest) as [|a arg].
      * right. eexists. split; [| apply welcome_replied].
        right. right. now eexists.
      * unfold bind, convert_member.
        destruct (resolve_member (env w) (String a arg)) as [mem|];
          [| now left].
        right. eexists. split; [| apply welcome_replied].
        right. right. now eexists.
    + right. exists (Rich help_embed).
      split; [right; now left | apply help_replied].
  - left. now case_decide.
Qed.

End Step.

(** ** The event loop on the script's bot *)

Section Loop.

Lemma event_loop_cons (b : Bot) (msg : Inbound) (rest : list Inbound) (w : World) :
  event_loop b (msg :: rest) w
  = event_loop b rest (snd (process_commands b msg w)).
Proof. reflexivity. Qed.

(** The loop ends normally; it adds at most one reply per message, each a
    reply of the three handlers, prints nothing, and takes one value from
    the generator per text reply. *)
Lemma event_loop_nyra (inbound : list Inbound) (w : World) :
  exists new,
    event_loop nyra_bot inbound w
    = (Ok tt,
       {| env := env w; sent := sent w ++ new; stdout := stdout w;
          cursor := cursor w + length (filter (fun m => is_text m = true) new) |})
    /\ length new <= length inbound
    /\ Forall bot_reply new.
Proof.
  revert w. induction inbound as [|msg rest IH]; intros w.
  - exists []. split; [| split; [reflexivity | constructor]].
    destruct w. cbn. unfold ret. now rewrite app_nil_r, Nat.add_0_r.
  - rewrite event_loop_cons.
    destruct (process_nyra_step msg w) as [-> | (m & Hm & ->)].
    + destruct (IH w) as (new & -> & Hlen & Hall).
      exists new. split; [reflexivity | split; [cbn; lia | exact Hall]].
    + destruct (IH (replied m w)) as (new & -> & Hlen & Hall).
      exists (m :: new). split; [| split; [cbn; lia | now constructor]].
      unfold replied. cbn [env sent stdout cursor].
      rewrite <- app_assoc. cbn [app]. do 2 f_equal.
      rewrite filter_cons. destruct m; cbn [is_text]; case_decide;
        try discriminate; try congruence; cbn [length]; lia.
Qed.

End Loop.

(** X1. Over any sequence of inbound messages the script's bot keeps every
    message sent before and adds at most one reply per inbound message; the
    loop itself always ends normally. *)
Theorem event_loop_one_reply_per_message (inbound : list Inbound) (w : World) :
  exists new,
    sent (snd (event_loop nyra_bot inbound w)) = sent w ++ new
    /\ length new <= length inbound
    /\ fst (event_loop nyra_bot inbound w) = Ok tt.
Proof.
  destruct (event_loop_nyra inbound w) as (new & -> & Hlen & _).
  exists new. split; [reflexivity | split; [exact Hlen | reflexivity]].
Qed.

(** X2. Whatever arrives, the bot only ever sends one of the five wisdom
    texts, the help embed, or a welcome embed built around some mention. *)
Theorem event_loop_sends_known_replies (inbound : list Inbound) (w : World) :
  exists new,
    sent (snd (event_loop nyra_bot inbound w)) = sent w ++ new
    /\ Forall bot_reply new.
Proof.
  destruct (event_loop_nyra inbound w) as (new & -> & _ & Hall).
  exists new. split; [reflexivity | exact Hall].
Qed.


(** ** Calls of the three commands *)

Section Calls.

Lemma send_replied (m : Message) (w : World) :
  is_text m = false -> snd (send m w) = replied m w.
Proof. intros H. unfold send, replied. rewrite H. now destruct (transport _ _). Qed.


End Calls.

(** X4. [welcome] raises nothing of its own, whatever argument it is called
    with: it hands exactly one message to the transport, the outcome is an
    error only when the transport fails that send, and it neither prints
    nor takes a value from the generator. *)
Theorem welcome_never_fails
    (ctx : Context) (a : Arg (option Member)) (w : World) :
  exists m,
    snd (welcome ctx a w)
    = {| env := env w; sent := sent w ++ [m]; stdout := stdout w;
         cursor := cursor w |}
    /\ fst (welcome ctx a w)
       = if transport (env w) (length (sent w))
         then Ok tt else Raised HTTPException.
Proof.
  rewrite welcome_run. eexists. unfold send.
  destruct (transport (env w) (length (sent w))); split; reflexivity.
Qed.







(** X9. A call of [welcome] followed by nothing but white space sends the
    welcome embed around the mention of the author of the message. *)
Theorem welcome_call_no_argument (msg : Inbound) (rest : string) (w : World) :
  calls "welcome" rest msg ->
  skip_ws rest = "" ->
  process_commands nyra_bot msg w
  = send (Rich (welcome_embed (mention (msg_author msg)))) w.
Proof.
  intros Hc He.
  rewrite (process_plain msg "welcome" rest cmd_welcome w Hc eq_refl
             nyra_lookup_welcome).
  cbn [invoke cmd_welcome]. unfold invoke_welcome. rewrite He.
  apply welcome_run.
Qed.

Lemma welcome_call_no_argument_witness :
  process_commands nyra_bot
    {| msg_content := "lunaria!welcome  "; msg_author := luna |}
    sample_world
  = send (Rich (welcome_embed "<@1001>")) sample_world.
Proof.
  apply (welcome_call_no_argument
           {| msg_content := "lunaria!welcome  "; msg_author := luna |}
           "  " sample_world).
  - split; [reflexivity | split; [reflexivity | right; reflexivity]].
  - reflexivity.
Defined.

(** X10. A call of [help], with anything after the command word, sends the
    help embed. *)
Theorem help_call_sends_listing (msg : Inbound) (rest : string) (w : World) :
  calls "help" rest msg ->
  process_commands nyra_bot msg w = send (Rich help_embed) w.
Proof.
  intros Hc.
  rewrite (process_plain msg "help" rest cmd_help w Hc eq_refl nyra_lookup_help).
  apply help_run.
Qed.

Lemma help_call_sends_listing_witness :
  process_commands nyra_bot
    {| msg_content := "lunaria!help me please"; msg_author := luna |}
    sample_world
  = send (Rich help_embed) sample_world.
Proof.
  apply (help_call_sends_listing
           {| msg_content := "lunaria!help me please"; msg_author := luna |}
           " me please" sample_world).
  split; [reflexivity | split; [reflexivity | right; reflexivity]].
Defined.






